(** * GDFB.GeoGrid: a sparse geographic grid, embedded from [GDFB.py]

    [GeoGrid] is a [dict] subclass whose keys are tile anchors (pairs of
    numbers) and whose values are scalars.  The embedding keeps

    - the instance attributes ([rect], [default], [gridsize], [tilesize]) and
      the dictionary part ([items], in insertion order) in one record;
    - objects in a heap addressed by references, because [__setitem__] mutates
      its receiver and the arithmetic operators work on a [copy] of [self];
    - Python exceptions as an explicit outcome.

    Numbers.  Coordinates are Python floats; they are idealised here as exact
    canonical rationals ([Qc]), on which [=] is numeric equality.  Rounding is
    therefore outside the model.  Stored values never mix with coordinates in
    the source, so they are kept in a separate type [V] with decidable
    equality; the scalar operators on [V] are parameters that may raise an
    arithmetic error.

    [from_img] decodes an image with PIL and then calls [set_from_grid] once
    per pixel on a new grid; the decoding is outside this file, and what it
    does to the grid is a sequence of the calls modelled here. *)

From Stdlib Require Import QArith Qcanon Qround Qcabs ZArith Lia.
From stdpp Require Import base decidable option list numbers.

Local Open Scope Qc_scope.

(** ** Exceptions and outcomes *)

(** [ZeroDivisionError] and [OverflowError] are the errors float arithmetic
    raises; both are subclasses of [ArithmeticError]. *)
Inductive fault := ZeroDivisionError | OverflowError.

(** [ValueError] is raised by the operators on incompatible rectangles.
    [Dangling] has no Python counterpart (a Python reference always denotes a
    live object); it is the outcome of a method called on an unallocated
    reference. *)
Inductive exn :=
  | ValueError
  | ArithmeticError (f : fault)
  | Dangling.

Inductive outcome (A : Type) :=
  | Ok (a : A)
  | Raise (e : exn).
Arguments Ok {A} a.
Arguments Raise {A} e.

Definition obind {A B} (m : outcome A) (f : A -> outcome B) : outcome B :=
  match m with
  | Ok a => f a
  | Raise e => Raise e
  end.

Definition of_fault {A} (r : A + fault) : outcome A :=
  match r with
  | inl a => Ok a
  | inr f => Raise (ArithmeticError f)
  end.

#[global] Instance outcome_ret : MRet outcome := @Ok.
#[global] Instance outcome_bind : MBind outcome := fun A B f m => obind m f.

#[global] Instance fault_eq_dec : EqDecision fault.
Proof. solve_decision. Defined.
#[global] Instance exn_eq_dec : EqDecision exn.
Proof. solve_decision. Defined.
#[global] Instance outcome_eq_dec {A} `{EqDecision A} : EqDecision (outcome A).
Proof. solve_decision. Defined.

(** ** Python arithmetic on exact numbers *)

Abbreviation num := Qc (only parsing).
Abbreviation pair2 := (Qc * Qc)%type (only parsing).

Definition zero_division {A} : outcome A := Raise (ArithmeticError ZeroDivisionError).

(** The largest integer not above [a]. *)
Definition floor (a : num) : Z := Qfloor a.

(** [a / b] (true division). *)
Definition py_truediv (a b : num) : outcome num :=
  if decide (b = 0) then zero_division else Ok (a / b).

(** [a % b]: the remainder takes the sign of the divisor,
    [a - b * floor (a / b)]; a zero divisor raises. *)
Definition py_rem (a b : num) : num := a - b * Qc_of_Z (floor (a / b)).
Definition py_mod (a b : num) : outcome num :=
  if decide (b = 0) then zero_division else Ok (py_rem a b).

(** [min] and [max] of two arguments return the first one on ties. *)
Definition py_min (a b : num) : num := if decide (b < a) then b else a.
Definition py_max (a b : num) : num := if decide (a < b) then b else a.

Definition py_abs (a : num) : num := Qcabs a.

(** [int(x)] truncates towards zero. *)
Definition py_int (a : num) : Z := Z.quot (Qnum a) (Zpos (Qden a)).

(** ** Dictionaries in insertion order *)

Section Dict.
Context {K V : Type} `{EqDecision K}.

Fixpoint dict_get (d : list (K * V)) (k : K) : option V :=
  match d with
  | [] => None
  | (k', v) :: d' => if decide (k' = k) then Some v else dict_get d' k
  end.

(** [dict.__setitem__]: an existing key keeps its position. *)
Fixpoint dict_set (d : list (K * V)) (k : K) (v : V) : list (K * V) :=
  match d with
  | [] => [(k, v)]
  | (k', v') :: d' =>
      if decide (k' = k) then (k', v) :: d' else (k', v') :: dict_set d' k v
  end.

Definition dict_keys (d : list (K * V)) : list K := map fst d.
End Dict.

(** ** The object *)

Section GeoGrid.
Context {V : Type} `{EqDecision V}.

Record GeoGrid := mkGeoGrid {
  rect : pair2 * pair2;
  default : V;
  gridsize : Z * Z;
  tilesize : pair2;
  items : list (pair2 * V)
}.

#[global] Instance GeoGrid_eq_dec : EqDecision GeoGrid.
Proof. solve_decision. Defined.

Definition with_items (g : GeoGrid) (d : list (pair2 * V)) : GeoGrid :=
  {| rect := rect g; default := default g; gridsize := gridsize g;
     tilesize := tilesize g; items := d |}.

(** [GeoGrid.__init__]; [gridsize[-1]] of a pair is its second component,
    and [self.gridsize[d-1]] is [gridsize[-1]] for [d = 0] and
    [gridsize[0]] for [d = 1]. *)
Definition __init__ (rct : pair2 * pair2) (gsz : Z * Z) (dflt : V)
  : outcome GeoGrid :=
  let bottomleft := (py_min rct.1.1 rct.2.1, py_min rct.1.2 rct.2.2) in
  let topright := (py_max rct.1.1 rct.2.1, py_max rct.1.2 rct.2.2) in
  let gs := (gsz.1, gsz.2) in
  t0 ← py_truediv (py_abs (rct.1.1 - rct.2.1)) (Qc_of_Z gs.2);
  t1 ← py_truediv (py_abs (rct.1.2 - rct.2.2)) (Qc_of_Z gs.1);
  Ok {| rect := (bottomleft, topright); default := dflt; gridsize := gs;
        tilesize := (t0, t1); items := [] |}.

(** [GeoGrid.get_tile_of_coord]. *)
Definition get_tile_of_coord (self : GeoGrid) (coord : pair2) : outcome pair2 :=
  m0 ← py_mod coord.1 (tilesize self).1;
  o0 ← py_mod (rect self).1.1 (tilesize self).1;
  m1 ← py_mod coord.2 (tilesize self).2;
  o1 ← py_mod (rect self).1.2 (tilesize self).2;
  Ok (coord.1 - m0 + o0, coord.2 - m1 + o1).
End GeoGrid.
Arguments GeoGrid V : clear implicits.


(** ** The heap of objects *)

Abbreviation ref := nat (only parsing).
Abbreviation heap V := (list (GeoGrid V)) (only parsing).

Section Heap.
Context {V : Type} `{EqDecision V}.
Local Abbreviation heap := (heap V).

(** Computations that read and mutate the heap and may raise. *)
Definition M (A : Type) : Type := heap → outcome A * heap.

Definition ret {A} (a : A) : M A := λ h, (Ok a, h).
Definition bind {A B} (m : M A) (f : A → M B) : M B :=
  λ h, match m h with
       | (Ok a, h') => f a h'
       | (Raise e, h') => (Raise e, h')
       end.
Definition raise {A} (e : exn) : M A := λ h, (Raise e, h).
Definition lift {A} (o : outcome A) : M A := λ h, (o, h).

Definition read (r : ref) : M (GeoGrid V) :=
  λ h, match h !! r with
       | Some g => (Ok g, h)
       | None => (Raise Dangling, h)
       end.
Definition write (r : ref) (g : GeoGrid V) : M unit := λ h, (Ok (), <[r:=g]> h).
Definition alloc (g : GeoGrid V) : M ref := λ h, (Ok (length h), h ++ [g]).

#[global] Instance M_ret : MRet M := @ret.
#[global] Instance M_bind : MBind M := λ A B f m, bind m f.

(** [for x in l: body(x)] *)
Fixpoint for_each {A} (l : list A) (body : A → M unit) : M unit :=
  match l with
  | [] => ret ()
  | x :: l' => bind (body x) (λ _, for_each l' body)
  end.

(** The items a generator yields when it is run to its end. *)
Fixpoint collect {A B} (l : list A) (body : A → M B) : M (list B) :=
  match l with
  | [] => ret []
  | x :: l' => bind (body x) (λ y, bind (collect l' body) (λ ys, ret (y :: ys)))
  end.

(** ** Methods *)

(** [GeoGrid(rect, gridsize, default)] *)
Definition GeoGrid_new (rct : pair2 * pair2) (gsz : Z * Z) (dflt : V) : M ref :=
  g ← lift (__init__ rct gsz dflt);
  alloc g.

(** [GeoGrid.__setitem__]: the write is skipped for the default value;
    otherwise [dict.__setitem__] stores under the tile of [coord]. *)
Definition __setitem__ (self : ref) (coord : pair2) (value : V) : M unit :=
  g ← read self;
  if decide (value ≠ default g) then
    key ← lift (get_tile_of_coord g coord);
    write self (with_items g (dict_set (items g) key value))
  else ret ().

(** [GeoGrid.__missing__], called by [dict.__getitem__] on an absent key. *)
Definition __missing__ (self : GeoGrid V) (coord : pair2) : V := default self.

(** [GeoGrid.__getitem__] *)
Definition __getitem__ (self : ref) (coord : pair2) : M V :=
  g ← read self;
  key ← lift (get_tile_of_coord g coord);
  ret (match dict_get (items g) key with
       | Some v => v
       | None => __missing__ g key
       end).

(** [copy.copy(x)] of a [dict] subclass without [__copy__]: the object is
    rebuilt from [x.__reduce_ex__], that is [cls.__new__(cls)], then the
    instance attributes ([y.__dict__.update(state)]), then [y[key] = value]
    for each of [x.items()] -- through [GeoGrid.__setitem__]. *)
Definition copy (x : ref) : M ref :=
  g ← read x;
  y ← alloc (with_items g []);
  _ ← for_each (items g) (λ kv, __setitem__ y kv.1 kv.2);
  ret y.

(** The decorator [__grid_operation].  [for coord in other] walks the keys
    of [other]; [other] is not written during the loop (only the fresh
    [geogrid] is), so the keys are those read when the loop starts. *)
Definition __grid_operation (operation : ref → ref → pair2 → ref → M unit)
    (self other : ref) : M ref :=
  s ← read self;
  o ← read other;
  if decide (rect s ≠ rect o) then raise ValueError
  else
    geogrid ← copy self;
    o ← read other;
    _ ← for_each (dict_keys (items o))
          (λ coord, operation self other coord geogrid);
    ret geogrid.

(** The decorated bodies [geogrid[coord] ⊙= other[coord]] for a scalar
    operator [⊙]: read [geogrid[coord]], read [other[coord]], combine,
    store into [geogrid[coord]]. *)
Definition augmented (f : V → V → V + fault)
    (self other : ref) (coord : pair2) (geogrid : ref) : M unit :=
  a ← __getitem__ geogrid coord;
  b ← __getitem__ other coord;
  c ← lift (of_fault (f a b));
  __setitem__ geogrid coord c.

(** A decorated method, for the scalar operator [f]. *)
Definition binary_operator (f : V → V → V + fault) : ref → ref → M ref :=
  __grid_operation (augmented f).

(** The five decorated methods, over the scalar [/], [+], [-], [*] and [**]
    of the values. *)
Section Operators.
Variables truediv add sub mul pow : V → V → V + fault.

Definition __truediv__ : ref → ref → M ref := binary_operator truediv.
Definition __add__ : ref → ref → M ref := binary_operator add.
Definition __sub__ : ref → ref → M ref := binary_operator sub.
Definition __mul__ : ref → ref → M ref := binary_operator mul.
Definition __pow__ : ref → ref → M ref := binary_operator pow.
End Operators.

(** [GeoGrid.set_from_grid] *)
Definition set_from_grid (self : ref) (tile : Z * Z) (value : V) : M unit :=
  g ← read self;
  let key := (Qc_of_Z tile.1 * (tilesize g).1 + (rect g).1.1,
              Qc_of_Z tile.2 * (tilesize g).2 + (rect g).1.2) in
  __setitem__ self key value.

(** [GeoGrid.yield_grid], run to its end. *)
Definition yield_grid (self : ref) : M (list ((Z * Z) * V)) :=
  g ← read self;
  collect (dict_keys (items g)) (λ tile,
    g ← read self;
    p0 ← lift (py_truediv (tile.1 - (rect g).1.1) (tilesize g).1);
    p1 ← lift (py_truediv (tile.2 - (rect g).1.2) (tilesize g).2);
    v ← __getitem__ self tile;
    ret ((py_int p0, py_int p1), v)).

(** [GeoGrid.yield_values], run to its end. *)
Definition yield_values (self : ref) (coords : option (list pair2)) : M (list V) :=
  g ← read self;
  let coords := match coords with
                | None => dict_keys (items g)
                | Some cs => cs
                end in
  collect coords (λ coord, __getitem__ self coord).
End Heap.
Arguments M V A : clear implicits.

(** ** Scalar operators on exact values *)

Definition Z2 (a b : Z) : pair2 := (Qc_of_Z a, Qc_of_Z b).

Definition Qc_truediv (a b : Qc) : Qc + fault :=
  if decide (b = 0) then inr ZeroDivisionError else inl (a / b).
Definition Qc_add (a b : Qc) : Qc + fault := inl (a + b).
Definition Qc_sub (a b : Qc) : Qc + fault := inl (a - b).
Definition Qc_mul (a b : Qc) : Qc + fault := inl (a * b).


(** ** Vocabulary of the statements *)

Section Vocabulary.
Context {V : Type} `{EqDecision V}.

(** Both tile sizes are non-zero, so that [%] and [/] by them are defined. *)
Definition tile_ok (g : GeoGrid V) : Prop :=
  (tilesize g).1 ≠ 0 ∧ (tilesize g).2 ≠ 0.

(** The value [get_tile_of_coord] computes where it is defined. *)
Definition tile (g : GeoGrid V) (c : pair2) : pair2 :=
  (c.1 - py_rem c.1 (tilesize g).1 + py_rem (rect g).1.1 (tilesize g).1,
   c.2 - py_rem c.2 (tilesize g).2 + py_rem (rect g).1.2 (tilesize g).2).

(** What the dictionary part holds under key [k], [default] if nothing. *)
Definition value_at (g : GeoGrid V) (k : pair2) : V :=
  match dict_get (items g) k with
  | Some v => v
  | None => default g
  end.

(** The sparse-storage invariant: no stored value is the default. *)
Definition sparse (g : GeoGrid V) : Prop :=
  Forall (λ kv, kv.2 ≠ default g) (items g).

(** A stored key is its own tile. *)
Definition quantized (g : GeoGrid V) (k : pair2) : Prop :=
  get_tile_of_coord g k = Ok k.

(** The dictionary part as the methods build it: keys are unique (it is a
    [dict]), every key is a tile anchor, no value is the default. *)
Definition wf (g : GeoGrid V) : Prop :=
  NoDup (dict_keys (items g)) ∧
  Forall (λ kv, quantized g kv.1) (items g) ∧
  sparse g.

(** The attributes, which no method assigns after [__init__]. *)
Definition same_attrs (g g' : GeoGrid V) : Prop :=
  rect g = rect g' ∧ default g = default g' ∧
  gridsize g = gridsize g' ∧ tilesize g = tilesize g'.

(** *** One object at a time

    What [__getitem__], [__setitem__] and the operator bodies do to the one
    object they read or write, with the outcome and the object after. *)
Definition get_obj (g : GeoGrid V) (c : pair2) : outcome V :=
  match get_tile_of_coord g c with
  | Ok k => Ok (value_at g k)
  | Raise e => Raise e
  end.

Definition set_obj (c : pair2) (v : V) (g : GeoGrid V) : outcome unit * GeoGrid V :=
  if decide (v ≠ default g) then
    match get_tile_of_coord g c with
    | Ok k => (Ok (), with_items g (dict_set (items g) k v))
    | Raise e => (Raise e, g)
    end
  else (Ok (), g).

Definition step_obj (f : V → V → V + fault) (o : GeoGrid V) (k : pair2)
    (g : GeoGrid V) : outcome unit * GeoGrid V :=
  match get_obj g k with
  | Raise e => (Raise e, g)
  | Ok a =>
      match get_obj o k with
      | Raise e => (Raise e, g)
      | Ok b =>
          match f a b with
          | inr e => (Raise (ArithmeticError e), g)
          | inl c => set_obj k c g
          end
      end
  end.

Fixpoint loop_obj {A} (body : A → GeoGrid V → outcome unit * GeoGrid V)
    (l : list A) (g : GeoGrid V) : outcome unit * GeoGrid V :=
  match l with
  | [] => (Ok (), g)
  | x :: l' =>
      match body x g with
      | (Ok _, g') => loop_obj body l' g'
      | (Raise e, g') => (Raise e, g')
      end
  end.

(** The object [copy] builds from [g], and the one an operator builds from
    that copy and [o]. *)
Definition copy_obj (g : GeoGrid V) : outcome unit * GeoGrid V :=
  loop_obj (λ kv, set_obj kv.1 kv.2) (items g) (with_items g []).

Definition operator_obj (f : V → V → V + fault) (s o : GeoGrid V)
  : outcome unit * GeoGrid V :=
  match copy_obj s with
  | (Ok _, g) => loop_obj (step_obj f o) (dict_keys (items o)) g
  | (Raise e, g) => (Raise e, g)
  end.

Definition returning {A} (a : A) (r : outcome unit) : outcome A :=
  match r with
  | Ok _ => Ok a
  | Raise e => Raise e
  end.


(** [m] keeps a property of the heap, whatever its outcome. *)
Definition preserves {A} (P : heap V → Prop) (m : M V A) : Prop :=
  ∀ h, P h → P (m h).2.

(** [m] does not write. *)
Definition read_only {A} (m : M V A) : Prop := ∀ h, (m h).2 = h.

(** Calls of the public methods, as a client issues them. *)
Inductive call :=
  | CallNew (rct : pair2 * pair2) (gsz : Z * Z) (dflt : V)
  | CallSet (self : ref) (coord : pair2) (value : V)
  | CallGet (self : ref) (coord : pair2)
  | CallSetFromGrid (self : ref) (tile : Z * Z) (value : V)
  | CallOperator (f : V → V → V + fault) (self other : ref)
  | CallYieldGrid (self : ref)
  | CallYieldValues (self : ref) (coords : option (list pair2)).

Definition discard {A} (m : M V A) : M V unit := bind m (λ _, ret ()).

Definition exec (c : call) : M V unit :=
  match c with
  | CallNew rct gsz dflt => discard (GeoGrid_new rct gsz dflt)
  | CallSet self coord value => __setitem__ self coord value
  | CallGet self coord => discard (__getitem__ self coord)
  | CallSetFromGrid self tl value => set_from_grid self tl value
  | CallOperator f self other => discard (binary_operator f self other)
  | CallYieldGrid self => discard (yield_grid self)
  | CallYieldValues self coords => discard (yield_values self coords)
  end.

(** The heap after a sequence of calls; a call that raises leaves the heap
    as it was when the exception left the method, and the client goes on. *)
Definition exec_all (cs : list call) (h : heap V) : heap V :=
  foldl (λ h c, (exec c h).2) h cs.
End Vocabulary.

(** ** [from_img]

    A decoded image, as [from_img] uses it: [img.size], (width, height), and
    the red channel [img.load()[x, y][0]] of each pixel, an integer.  The
    values of the grid are exact numbers here, and its default is [0.0]. *)

Record image := mkImage {
  img_size : nat * nat;
  img_red : nat → nat → Z
}.

(** [GeoGrid.from_img]; [range(n)] is [seq 0 n]. *)
Definition from_img (rct : pair2 * pair2) (img : image) (divisor : Qc) : M Qc ref :=
  geogrid ← GeoGrid_new rct (Z.of_nat (img_size img).1, Z.of_nat (img_size img).2)
              (Qc_of_Z 0);
  _ ← for_each (seq 0 (img_size img).1) (λ x,
        for_each (seq 0 (img_size img).2) (λ y,
          let mapy := ((img_size img).2 - (y + 1))%nat in
          v ← lift (py_truediv (Qc_of_Z (img_red img x mapy)) divisor);
          set_from_grid geogrid (Z.of_nat y, Z.of_nat x) v));
  ret geogrid.

(** ** Vocabulary of the further properties *)

Section MoreVocabulary.
Context {V : Type} `{EqDecision V}.

(** The coordinate [set_from_grid] computes for the grid index [idx]. *)
Definition anchor (g : GeoGrid V) (idx : Z * Z) : pair2 :=
  (Qc_of_Z idx.1 * (tilesize g).1 + (rect g).1.1,
   Qc_of_Z idx.2 * (tilesize g).2 + (rect g).1.2).

(** Every object of [h] is in [h'], with the attributes it had and at least
    the keys it had. *)
Definition grows (h h' : heap V) : Prop :=
  ∀ (r : ref) g, h !! r = Some g →
    ∃ g', h' !! r = Some g' ∧ same_attrs g g' ∧
          ∀ k, k ∈ dict_keys (items g) → k ∈ dict_keys (items g').

Definition growing {A} (m : M V A) : Prop := ∀ h, grows h (m h).2.
End MoreVocabulary.

(** What the body of the loops of [from_img] does to the new grid, for the
    pixel column [x] and row [y]. *)
Definition pixel_obj (img : image) (divisor : Qc) (x y : nat) (g : GeoGrid Qc)
  : outcome unit * GeoGrid Qc :=
  match py_truediv (Qc_of_Z (img_red img x ((img_size img).2 - (y + 1))%nat)) divisor with
  | Ok v => set_obj (anchor g (Z.of_nat y, Z.of_nat x)) v g
  | Raise e => (Raise e, g)
  end.


(** The pairs [(x, y)] in the order of two nested loops. *)
Definition pairs {A B} (xs : list A) (ys : list B) : list (A * B) :=
  flat_map (λ x, map (pair x) ys) xs.

(** ** Scenarios

    Concrete grids over exact values, for the instances the statements are
    checked on.  [square] is the rectangle ((0,0),(10,10)). *)

Definition square : (Qc * Qc) * (Qc * Qc) := (Z2 0 0, Z2 10 10).

(** A 2 x 2 grid on [square], then [grid[(3,3)] = 7]. *)
Definition set_calls : list (call (V:=Qc)) :=
  [CallNew square (2, 2)%Z (Qc_of_Z 0)].
Definition set_heap : heap Qc := exec_all set_calls [].
Definition grid22 : GeoGrid Qc :=
  {| rect := square; default := Qc_of_Z 0; gridsize := (2, 2)%Z;
     tilesize := Z2 5 5; items := [] |}.

(** [gridA] holds 4 and [gridB] holds 2 at the tile of (0,0). *)
Definition div_calls : list (call (V:=Qc)) :=
  [CallNew square (2, 2)%Z (Qc_of_Z 0); CallSet 0 (Z2 0 0) (Qc_of_Z 4);
   CallNew square (2, 2)%Z (Qc_of_Z 0); CallSet 1 (Z2 0 0) (Qc_of_Z 2)].
Definition div_heap : heap Qc := exec_all div_calls [].
Definition gridA : GeoGrid Qc := with_items grid22 [(Z2 0 0, Qc_of_Z 4)].
Definition gridB : GeoGrid Qc := with_items grid22 [(Z2 0 0, Qc_of_Z 2)].







(** Grids on different rectangles with the same gridsize. *)
Definition other_square : (Qc * Qc) * (Qc * Qc) := (Z2 0 0, Z2 20 20).
Definition apart_calls : list (call (V:=Qc)) :=
  [CallNew square (2, 2)%Z (Qc_of_Z 0); CallNew other_square (2, 2)%Z (Qc_of_Z 0)].
Definition apart_heap : heap Qc := exec_all apart_calls [].
Definition grid22_wide : GeoGrid Qc :=
  {| rect := other_square; default := Qc_of_Z 0; gridsize := (2, 2)%Z;
     tilesize := Z2 10 10; items := [] |}.

(** Evaluation of a closed decidable statement. *)
Ltac by_evaluation := apply (bool_decide_unpack _); vm_compute; exact I.

Ltac unfold_M := unfold mbind, M_bind, mret, M_ret in *.

(** * Properties *)

(** ** Arithmetic *)

Lemma floor_add_Z (x : num) (n : Z) : floor (x + Qc_of_Z n) = (floor x + n)%Z.
Proof.
  unfold floor. destruct x as [[a d] Hc]. simpl.
  rewrite (Qfloor_comp _ ((a # d) + inject_Z n)%Q) by apply Qred_correct.
  unfold Qplus, inject_Z. simpl.
  rewrite Z.mul_1_r, Pos.mul_1_r. apply Z.div_add. lia.
Qed.

Lemma py_rem_shift (r t : num) (m : Z) :
  t ≠ 0 → py_rem (r + t * Qc_of_Z m) t = py_rem r t.
Proof.
  intros Ht. unfold py_rem.
  replace ((r + t * Qc_of_Z m) / t) with (r / t + Qc_of_Z m) by (field; done).
  rewrite floor_add_Z, Z2Qc_inj_add. ring.
Qed.


Lemma py_mod_Ok (a b : num) : b ≠ 0 → py_mod a b = Ok (py_rem a b).
Proof. intros. unfold py_mod. by rewrite decide_False. Qed.

Lemma py_mod_zero (a : num) : py_mod a 0 = zero_division.
Proof. unfold py_mod. by rewrite decide_True. Qed.

Lemma py_truediv_Ok (a b : num) : b ≠ 0 → py_truediv a b = Ok (a / b).
Proof. intros. unfold py_truediv. by rewrite decide_False. Qed.

(** ** Dictionaries *)

Section DictFacts.
Context {K V : Type} `{EqDecision K}.
Implicit Types (d : list (K * V)) (k : K) (v : V).

Lemma dict_get_set_eq d k v : dict_get (dict_set d k v) k = Some v.
Proof.
  induction d as [|[k' v'] d IH]; simpl.
  - by rewrite decide_True.
  - destruct (decide (k' = k)) as [->|Hne]; simpl.
    + by rewrite decide_True.
    + by rewrite decide_False.
Qed.

Lemma dict_get_set_ne d k k' v :
  k ≠ k' → dict_get (dict_set d k v) k' = dict_get d k'.
Proof.
  intros Hne. induction d as [|[k0 v0] d IH]; simpl.
  - by rewrite decide_False.
  - destruct (decide (k0 = k)) as [->|Hne0]; simpl.
    + by rewrite !decide_False.
    + by rewrite IH.
Qed.

Lemma dict_get_None d k : dict_get d k = None ↔ k ∉ dict_keys d.
Proof.
  induction d as [|[k' v'] d IH]; simpl.
  - split; [intros _; apply not_elem_of_nil | done].
  - rewrite not_elem_of_cons. destruct (decide (k' = k)) as [->|Hne].
    + split; [done | intros [? _]; done].
    + rewrite IH. split; [intros; split; congruence | intros [_ ?]; done].
Qed.




Lemma elem_of_dict_set d k v kv : kv ∈ dict_set d k v → kv = (k, v) ∨ kv ∈ d.
Proof.
  induction d as [|[k' v'] d IH]; simpl.
  - intros ->%list_elem_of_singleton. by left.
  - destruct (decide (k' = k)) as [->|Hne].
    + intros [->|?]%elem_of_cons; [by left | right; by right].
    + intros [->|Hin]%elem_of_cons; [right; left|].
      destruct (IH Hin); [by left | right; by right].
Qed.

Lemma dict_set_fresh d k v : k ∉ dict_keys d → dict_set d k v = d ++ [(k, v)].
Proof.
  induction d as [|[k' v'] d IH]; simpl; [done|].
  intros [Hne Hn]%not_elem_of_cons.
  rewrite decide_False by done. by rewrite IH.
Qed.

Lemma dict_keys_set_present d k v :
  k ∈ dict_keys d → dict_keys (dict_set d k v) = dict_keys d.
Proof.
  induction d as [|[k' v'] d IH]; simpl.
  - by intros ?%elem_of_nil.
  - destruct (decide (k' = k)) as [->|Hne]; simpl; [done|].
    intros [?|Hin]%elem_of_cons; [congruence|]. by rewrite IH.
Qed.

Lemma NoDup_dict_set d k v :
  NoDup (dict_keys d) → NoDup (dict_keys (dict_set d k v)).
Proof.
  intros Hnd. destruct (decide (k ∈ dict_keys d)) as [Hin|Hn].
  - by rewrite dict_keys_set_present.
  - rewrite dict_set_fresh by done. unfold dict_keys. rewrite map_app. simpl.
    apply list.NoDup_app. split_and!; [done| |apply NoDup_singleton].
    intros x Hx ->%list_elem_of_singleton. done.
Qed.
End DictFacts.

(** ** Tiles *)

Section TileFacts.
Context {V : Type} `{EqDecision V}.
Implicit Types (g : GeoGrid V) (c k : pair2).

Lemma get_tile_of_coord_Ok g c : tile_ok g → get_tile_of_coord g c = Ok (tile g c).
Proof.
  intros [H0 H1]. unfold get_tile_of_coord.
  rewrite !(py_mod_Ok _ (tilesize g).1), !(py_mod_Ok _ (tilesize g).2) by done.
  done.
Qed.

Lemma get_tile_of_coord_Raise g c :
  ¬ tile_ok g → get_tile_of_coord g c = zero_division.
Proof.
  intros Hn. unfold get_tile_of_coord.
  destruct (decide ((tilesize g).1 = 0)) as [E0|N0].
  - rewrite E0, py_mod_zero. done.
  - destruct (decide ((tilesize g).2 = 0)) as [E1|N1].
    + rewrite !(py_mod_Ok _ (tilesize g).1) by done. rewrite E1, py_mod_zero. done.
    + destruct Hn. by split.
Qed.

Lemma get_tile_of_coord_inv g c k :
  get_tile_of_coord g c = Ok k → tile_ok g ∧ k = tile g c.
Proof.
  intros Hk. destruct (decide ((tilesize g).1 = 0)) as [E0|N0].
  - rewrite get_tile_of_coord_Raise in Hk; [done|]. intros [? _]; done.
  - destruct (decide ((tilesize g).2 = 0)) as [E1|N1].
    + rewrite get_tile_of_coord_Raise in Hk; [done|]. intros [_ ?]; done.
    + rewrite get_tile_of_coord_Ok in Hk by done. by injection Hk as <-.
Qed.

Lemma get_tile_of_coord_ext g g' c :
  rect g = rect g' → tilesize g = tilesize g' →
  get_tile_of_coord g c = get_tile_of_coord g' c.
Proof. intros Hr Ht. unfold get_tile_of_coord. by rewrite Hr, Ht. Qed.

(** A tile is [rect[0] + tilesize * n] for an integer [n] on each axis. *)
Lemma tile_axis (x r t : num) :
  x - py_rem x t + py_rem r t = r + t * Qc_of_Z (floor (x / t) - floor (r / t)).
Proof. unfold py_rem. rewrite Z2Qc_inj_sub. ring. Qed.

Lemma tile_axis_idem (x r t : num) :
  t ≠ 0 →
  (x - py_rem x t + py_rem r t) - py_rem (x - py_rem x t + py_rem r t) t
    + py_rem r t
  = x - py_rem x t + py_rem r t.
Proof.
  intros Ht. rewrite (tile_axis x) at 2. rewrite py_rem_shift by done. ring.
Qed.

Lemma tile_idem g c : tile_ok g → tile g (tile g c) = tile g c.
Proof.
  intros [H0 H1]. unfold tile. cbn [fst snd].
  f_equal; by apply tile_axis_idem.
Qed.

Lemma quantized_tile g c k : get_tile_of_coord g c = Ok k → quantized g k.
Proof.
  intros [Hok ->]%get_tile_of_coord_inv. unfold quantized.
  rewrite get_tile_of_coord_Ok by done. by rewrite tile_idem.
Qed.

End TileFacts.

(** ** The heap monad *)

Section MonadFacts.
Context {V : Type} `{EqDecision V}.
Implicit Types (h : heap V) (P : heap V → Prop).

Lemma bind_Ok {A B} (m : M V A) (f : A → M V B) h a h' :
  m h = (Ok a, h') → bind m f h = f a h'.
Proof. intros Hm. unfold bind. by rewrite Hm. Qed.

Lemma bind_Raise {A B} (m : M V A) (f : A → M V B) h e h' :
  m h = (Raise e, h') → bind m f h = (Raise e, h').
Proof. intros Hm. unfold bind. by rewrite Hm. Qed.

Lemma read_Some r h g : h !! r = Some g → read r h = (Ok g, h).
Proof. intros Hr. unfold read. by rewrite Hr. Qed.

Lemma preserves_ret {A} P (a : A) : preserves P (ret a).
Proof. by intros h. Qed.

Lemma preserves_raise {A} P e : preserves P (raise (A:=A) e).
Proof. by intros h. Qed.

Lemma preserves_lift {A} P (o : outcome A) : preserves P (lift o).
Proof. by intros h. Qed.

Lemma preserves_read P r : preserves P (read r).
Proof. intros h Hh. unfold read. by destruct (h !! r). Qed.

Lemma preserves_bind {A B} P (m : M V A) (f : A → M V B) :
  preserves P m → (∀ a, preserves P (f a)) → preserves P (bind m f).
Proof.
  intros Hm Hf h Hh. unfold bind. specialize (Hm h Hh).
  destruct (m h) as [[a|e] h']; simpl in *; [by apply Hf | done].
Qed.

Lemma preserves_for_each {A} P (l : list A) (body : A → M V unit) :
  (∀ x, preserves P (body x)) → preserves P (for_each l body).
Proof.
  intros Hb. induction l as [|x l IH]; simpl.
  - apply preserves_ret.
  - apply preserves_bind; auto.
Qed.

Lemma preserves_collect {A B} P (l : list A) (body : A → M V B) :
  (∀ x, preserves P (body x)) → preserves P (collect l body).
Proof.
  intros Hb. induction l as [|x l IH]; simpl.
  - apply preserves_ret.
  - apply preserves_bind; [auto|]. intros y.
    apply preserves_bind; [auto|]. intros ys. apply preserves_ret.
Qed.

Lemma read_only_preserves {A} P (m : M V A) : read_only m → preserves P m.
Proof. intros Hm h Hh. by rewrite Hm. Qed.

Lemma read_only_bind {A B} (m : M V A) (f : A → M V B) :
  read_only m → (∀ a, read_only (f a)) → read_only (bind m f).
Proof.
  intros Hm Hf h. unfold bind. specialize (Hm h).
  destruct (m h) as [[a|e] h']; simpl in *; subst; [apply Hf | done].
Qed.

Lemma read_only_collect {A B} (l : list A) (body : A → M V B) :
  (∀ x, read_only (body x)) → read_only (collect l body).
Proof.
  intros Hb. induction l as [|x l IH]; simpl; [done|].
  apply read_only_bind; [auto|]. intros y.
  apply read_only_bind; [auto|]. by intros ys.
Qed.

Lemma read_only_read r : read_only (V:=V) (read r).
Proof. intros h. unfold read. by destruct (h !! r). Qed.

Lemma read_only_lift {A} (o : outcome A) : read_only (V:=V) (lift o).
Proof. by intros h. Qed.
End MonadFacts.

(** ** Methods, one call at a time *)

Section MethodFacts.
Context {V : Type} `{EqDecision V}.
Implicit Types (h : heap V) (g : GeoGrid V) (c k : pair2) (v : V).

Lemma setitem_eq self g c v h :
  h !! self = Some g →
  __setitem__ self c v h =
    if decide (v ≠ default g) then
      match get_tile_of_coord g c with
      | Ok k => (Ok (), <[self:=with_items g (dict_set (items g) k v)]> h)
      | Raise e => (Raise e, h)
      end
    else (Ok (), h).
Proof.
  intros Hs. unfold __setitem__. unfold_M.
  rewrite (bind_Ok _ _ _ _ _ (read_Some _ _ _ Hs)).
  destruct (decide (v ≠ default g)); [|done].
  unfold bind, lift. by destruct (get_tile_of_coord g c).
Qed.

Lemma setitem_dangling self c v h :
  h !! self = None → __setitem__ self c v h = (Raise Dangling, h).
Proof. intros Hs. unfold __setitem__. unfold_M. unfold bind, read. by rewrite Hs. Qed.

Lemma getitem_eq self g c h :
  h !! self = Some g → __getitem__ self c h = (get_obj g c, h).
Proof.
  intros Hs. unfold __getitem__, get_obj. unfold_M.
  rewrite (bind_Ok _ _ _ _ _ (read_Some _ _ _ Hs)).
  unfold bind, lift. by destruct (get_tile_of_coord g c).
Qed.

Lemma setitem_set_obj self g c v h :
  h !! self = Some g →
  __setitem__ self c v h = ((set_obj c v g).1, <[self:=(set_obj c v g).2]> h).
Proof.
  intros Hs. rewrite (setitem_eq _ g) by done. unfold set_obj.
  destruct (decide (v ≠ default g)); cbn [fst snd].
  - destruct (get_tile_of_coord g c); cbn [fst snd]; [done|].
    by rewrite list_insert_id.
  - by rewrite list_insert_id.
Qed.

Lemma read_only_getitem self c : read_only (V:=V) (__getitem__ self c).
Proof.
  unfold __getitem__. unfold_M. apply read_only_bind; [apply read_only_read|].
  intros g. apply read_only_bind; [apply read_only_lift|]. by intros k.
Qed.

Lemma read_only_yield_grid self : read_only (V:=V) (yield_grid self).
Proof.
  unfold yield_grid. unfold_M. apply read_only_bind; [apply read_only_read|].
  intros g. apply read_only_collect. intros tl.
  apply read_only_bind; [apply read_only_read|]. intros g'.
  apply read_only_bind; [apply read_only_lift|]. intros p0.
  apply read_only_bind; [apply read_only_lift|]. intros p1.
  apply read_only_bind; [apply read_only_getitem|]. by intros v.
Qed.

Lemma read_only_yield_values self coords :
  read_only (V:=V) (yield_values self coords).
Proof.
  unfold yield_values. unfold_M. apply read_only_bind; [apply read_only_read|].
  intros g. apply read_only_collect. intros c. apply read_only_getitem.
Qed.
End MethodFacts.

(** ** The fresh object of [copy] and of the operators *)

Section Local.
Context {V : Type} `{EqDecision V}.
Implicit Types (h : heap V) (g s o : GeoGrid V) (c k : pair2) (v : V).

Lemma lookup_fresh h g : (h ++ [g]) !! length h = Some g.
Proof. by rewrite list_lookup_middle. Qed.

Lemma insert_fresh h g g' : <[length h:=g']> (h ++ [g]) = h ++ [g'].
Proof.
  rewrite <-(Nat.add_0_r (length h)). by rewrite insert_app_r.
Qed.

Lemma setitem_local h g c v :
  __setitem__ (length h) c v (h ++ [g])
  = ((set_obj c v g).1, h ++ [(set_obj c v g).2]).
Proof.
  rewrite (setitem_set_obj _ g) by apply lookup_fresh. by rewrite insert_fresh.
Qed.

Lemma augmented_local f self other o h g k :
  h !! other = Some o →
  augmented f self other k (length h) (h ++ [g])
  = ((step_obj f o k g).1, h ++ [(step_obj f o k g).2]).
Proof.
  intros Ho. unfold augmented, step_obj. unfold_M. unfold bind at 1.
  rewrite (getitem_eq _ g) by apply lookup_fresh.
  destruct (get_obj g k) as [a|e]; [|done].
  unfold bind at 1. rewrite (getitem_eq _ o) by by apply lookup_app_l_Some.
  destruct (get_obj o k) as [b|e]; [|done].
  unfold bind, lift, of_fault. destruct (f a b) as [c|e]; [|done].
  apply setitem_local.
Qed.

Lemma for_each_local {A} h (body : A → M V unit)
    (body_obj : A → GeoGrid V → outcome unit * GeoGrid V) :
  (∀ x g, body x (h ++ [g]) = ((body_obj x g).1, h ++ [(body_obj x g).2])) →
  ∀ l g, for_each l body (h ++ [g])
         = ((loop_obj body_obj l g).1, h ++ [(loop_obj body_obj l g).2]).
Proof.
  intros Hb l. induction l as [|x l IH]; intros g; simpl; [done|].
  unfold bind. rewrite Hb.
  destruct (body_obj x g) as [[[]|e] g']; simpl; [apply IH | done].
Qed.

Lemma copy_eq x g h :
  h !! x = Some g →
  copy x h = (returning (length h) (copy_obj g).1, h ++ [(copy_obj g).2]).
Proof.
  intros Hx. unfold copy, copy_obj. unfold_M.
  rewrite (bind_Ok _ _ _ _ _ (read_Some _ _ _ Hx)).
  unfold bind at 1, alloc. unfold bind.
  rewrite (for_each_local h _ (λ kv, set_obj kv.1 kv.2))
    by (intros; apply setitem_local).
  by destruct (loop_obj _ _ _) as [[[]|e] g'].
Qed.

Lemma binary_operator_eq f self other s o h :
  h !! self = Some s → h !! other = Some o →
  binary_operator f self other h =
    if decide (rect s ≠ rect o) then (Raise ValueError, h)
    else (returning (length h) (operator_obj f s o).1,
          h ++ [(operator_obj f s o).2]).
Proof.
  intros Hs Ho. unfold binary_operator, __grid_operation, operator_obj. unfold_M.
  rewrite (bind_Ok _ _ _ _ _ (read_Some _ _ _ Hs)).
  rewrite (bind_Ok _ _ _ _ _ (read_Some _ _ _ Ho)).
  destruct (decide (rect s ≠ rect o)); [done|].
  unfold bind at 1. rewrite (copy_eq _ s) by done.
  destruct (copy_obj s) as [[[]|e] g]; simpl; [|done].
  rewrite (bind_Ok _ _ _ _ _ (read_Some _ _ _ (lookup_app_l_Some _ _ _ _ Ho))).
  unfold bind.
  rewrite (for_each_local h _ (step_obj f o))
    by (intros; by apply augmented_local).
  by destruct (loop_obj _ _ _) as [[[]|e] g'].
Qed.
End Local.

(** ** Invariants of the stored items *)

Section Attrs.
Context {V : Type} `{EqDecision V}.
Implicit Types (g : GeoGrid V).

Lemma same_attrs_refl g : same_attrs g g.
Proof. by repeat split. Qed.

Lemma same_attrs_trans g1 g2 g3 :
  same_attrs g1 g2 → same_attrs g2 g3 → same_attrs g1 g3.
Proof. intros (?&?&?&?) (?&?&?&?). repeat split; congruence. Qed.

Lemma same_attrs_with_items g d : same_attrs g (with_items g d).
Proof. by repeat split. Qed.

Lemma with_items_id g : with_items g (items g) = g.
Proof. by destruct g. Qed.

Lemma same_attrs_tile g g' c :
  same_attrs g g' → get_tile_of_coord g c = get_tile_of_coord g' c.
Proof. intros (?&?&?&?). by apply get_tile_of_coord_ext. Qed.

Lemma set_obj_same_attrs c v g : same_attrs g (set_obj c v g).2.
Proof.
  unfold set_obj. destruct (decide (v ≠ default g)); [|apply same_attrs_refl].
  destruct (get_tile_of_coord g c); [apply same_attrs_with_items|apply same_attrs_refl].
Qed.

Lemma step_obj_same_attrs f o k g : same_attrs g (step_obj f o k g).2.
Proof.
  unfold step_obj. destruct (get_obj g k); [|apply same_attrs_refl].
  destruct (get_obj o k); [|apply same_attrs_refl].
  destruct (f _ _); [apply set_obj_same_attrs|apply same_attrs_refl].
Qed.

Lemma loop_obj_same_attrs {A} (body : A → GeoGrid V → outcome unit * GeoGrid V) l :
  (∀ x g, same_attrs g (body x g).2) → ∀ g, same_attrs g (loop_obj body l g).2.
Proof.
  intros Hb. induction l as [|x l IH]; intros g; simpl; [apply same_attrs_refl|].
  specialize (Hb x g). destruct (body x g) as [[[]|e] g']; simpl in *; [|done].
  eapply same_attrs_trans; [done | apply IH].
Qed.

Lemma __init___items rct gsz dflt g : __init__ rct gsz dflt = Ok g → items g = [].
Proof.
  unfold __init__. unfold mbind, outcome_bind.
  destruct (py_truediv _ _); [|done]. simpl.
  destruct (py_truediv _ _); [|done]. simpl. by intros [= <-].
Qed.
End Attrs.

Section Invariant.
Context {V : Type} `{EqDecision V}.
Variable I : GeoGrid V → Prop.
Hypothesis I_empty : ∀ g, I (with_items g []).
Hypothesis I_store : ∀ g c k v,
  I g → v ≠ default g → get_tile_of_coord g c = Ok k →
  I (with_items g (dict_set (items g) k v)).

Lemma set_obj_inv c v g : I g → I (set_obj c v g).2.
Proof.
  intros Hg. unfold set_obj. destruct (decide (v ≠ default g)); [|done].
  destruct (get_tile_of_coord g c) eqn:Hk; [by eapply I_store | done].
Qed.

Lemma preserves_setitem self c v : preserves (Forall I) (__setitem__ self c v).
Proof.
  intros h Hh. destruct (h !! self) as [g|] eqn:Hs.
  - rewrite (setitem_set_obj _ g) by done. simpl.
    apply Forall_insert; [done|]. apply set_obj_inv.
    by eapply Forall_lookup_1.
  - by rewrite setitem_dangling.
Qed.

Lemma preserves_alloc g : I g → preserves (Forall I) (alloc g).
Proof. intros Hg h Hh. simpl. apply Forall_app. split; [done|]. by constructor. Qed.

Lemma preserves_new rct gsz dflt : preserves (Forall I) (GeoGrid_new rct gsz dflt).
Proof.
  intros h Hh. unfold GeoGrid_new. unfold_M. unfold bind, lift.
  destruct (__init__ rct gsz dflt) as [g|e] eqn:Hg; [|done].
  apply preserves_alloc; [|done].
  rewrite <-(with_items_id g), (__init___items _ _ _ _ Hg). apply I_empty.
Qed.

Lemma preserves_copy x : preserves (Forall I) (copy x).
Proof.
  unfold copy. unfold_M. apply preserves_bind; [apply preserves_read|]. intros g.
  apply preserves_bind; [apply preserves_alloc, I_empty|]. intros y.
  apply preserves_bind; [|intros; apply preserves_ret].
  apply preserves_for_each. intros kv. apply preserves_setitem.
Qed.

Lemma preserves_operator f self other :
  preserves (Forall I) (binary_operator f self other).
Proof.
  unfold binary_operator, __grid_operation. unfold_M.
  apply preserves_bind; [apply preserves_read|]. intros s.
  apply preserves_bind; [apply preserves_read|]. intros o.
  destruct (decide (rect s ≠ rect o)); [apply preserves_raise|].
  apply preserves_bind; [apply preserves_copy|]. intros geogrid.
  apply preserves_bind; [apply preserves_read|]. intros o'.
  apply preserves_bind; [|intros; apply preserves_ret].
  apply preserves_for_each. intros coord. unfold augmented. unfold_M.
  apply preserves_bind; [apply read_only_preserves, read_only_getitem|]. intros a.
  apply preserves_bind; [apply read_only_preserves, read_only_getitem|]. intros b.
  apply preserves_bind; [apply preserves_lift|]. intros c.
  apply preserves_setitem.
Qed.

Lemma preserves_set_from_grid self tl v :
  preserves (Forall I) (set_from_grid self tl v).
Proof.
  unfold set_from_grid. unfold_M.
  apply preserves_bind; [apply preserves_read|]. intros g. apply preserves_setitem.
Qed.

Lemma preserves_discard {A} (m : M V A) :
  preserves (Forall I) m → preserves (Forall I) (discard m).
Proof. intros Hm. apply preserves_bind; [done|]. intros; apply preserves_ret. Qed.

Lemma preserves_exec c : preserves (Forall I) (exec c).
Proof.
  destruct c; simpl.
  - apply preserves_discard, preserves_new.
  - apply preserves_setitem.
  - apply preserves_discard, read_only_preserves, read_only_getitem.
  - apply preserves_set_from_grid.
  - apply preserves_discard, preserves_operator.
  - apply preserves_discard, read_only_preserves, read_only_yield_grid.
  - apply preserves_discard, read_only_preserves, read_only_yield_values.
Qed.

Lemma exec_all_inv cs h : Forall I h → Forall I (exec_all cs h).
Proof.
  revert h. induction cs as [|c cs IH]; intros h Hh; simpl; [done|].
  apply IH. by apply preserves_exec.
Qed.
End Invariant.

Section InvariantInstances.
Context {V : Type} `{EqDecision V}.
Implicit Types (g : GeoGrid V).

Lemma sparse_empty g : sparse (with_items g []).
Proof. constructor. Qed.

Lemma sparse_store g c k v :
  sparse g → v ≠ default g → get_tile_of_coord g c = Ok k →
  sparse (with_items g (dict_set (items g) k v)).
Proof.
  unfold sparse. intros Hg Hv _. simpl. apply list.Forall_forall.
  intros kv [->|Hin]%elem_of_dict_set; [done|].
  by apply (proj1 (list.Forall_forall _ _) Hg).
Qed.

Lemma wf_empty g : wf (with_items g []).
Proof. split_and!; simpl; constructor. Qed.

Lemma wf_store g c k v :
  wf g → v ≠ default g → get_tile_of_coord g c = Ok k →
  wf (with_items g (dict_set (items g) k v)).
Proof.
  intros (Hnd & Hq & Hsp) Hv Hk. split_and!.
  - simpl. by apply NoDup_dict_set.
  - simpl. apply list.Forall_forall.
    intros kv [->|Hin]%elem_of_dict_set.
    + eapply (quantized_tile g). done.
    + by apply (proj1 (list.Forall_forall _ _) Hq).
  - by eapply sparse_store.
Qed.
End InvariantInstances.

(** ** What [copy] and the operator loop compute *)

Section Combine.
Context {V : Type} `{EqDecision V}.
Implicit Types (g s o : GeoGrid V) (k : pair2) (v : V).

Lemma set_obj_get (c : pair2) v g k k' :
  get_tile_of_coord g c = Ok k →
  (set_obj c v g).1 = Ok () ∧
  dict_get (items (set_obj c v g).2) k'
  = if decide (v ≠ default g ∧ k = k') then Some v else dict_get (items g) k'.
Proof.
  intros Hk. unfold set_obj. rewrite Hk.
  destruct (decide (v ≠ default g)) as [Hv|Hv]; simpl.
  - split; [done|]. destruct (decide (k = k')) as [->|Hne].
    + rewrite decide_True by done. apply dict_get_set_eq.
    + rewrite decide_False by (intros [_ ?]; done). by apply dict_get_set_ne.
  - split; [done|]. rewrite decide_False by (intros [? _]; done). done.
Qed.

Lemma copy_loop g d2 : ∀ d1,
  NoDup (dict_keys (d1 ++ d2)) →
  Forall (λ kv, quantized g kv.1) d2 →
  Forall (λ kv, kv.2 ≠ default g) d2 →
  loop_obj (λ kv, set_obj kv.1 kv.2) d2 (with_items g d1)
  = (Ok (), with_items g (d1 ++ d2)).
Proof.
  induction d2 as [|[k v] d2 IH]; intros d1 Hnd Hq Hv; simpl.
  - by rewrite app_nil_r.
  - apply list.Forall_cons in Hq as [Hk Hq]. apply list.Forall_cons in Hv as [Hvk Hv].
    simpl in Hk, Hvk. unfold set_obj at 1. simpl.
    rewrite decide_True by done.
    change (get_tile_of_coord (with_items g d1) k) with (get_tile_of_coord g k).
    rewrite Hk.
    assert (k ∉ dict_keys d1) as Hfresh.
    { unfold dict_keys in Hnd. rewrite map_app in Hnd.
      apply list.NoDup_app in Hnd as (_ & Hdis & _).
      intros Hin. apply (Hdis k Hin). simpl. left. }
    rewrite dict_set_fresh by done.
    change (with_items (with_items g d1) (d1 ++ [(k, v)]))
      with (with_items g (d1 ++ [(k, v)])).
    rewrite IH; [|by rewrite <-app_assoc|done|done].
    by rewrite <-app_assoc.
Qed.

Lemma copy_obj_wf g : wf g → copy_obj g = (Ok (), g).
Proof.
  intros (Hnd & Hq & Hsp). unfold copy_obj.
  rewrite (copy_loop g (items g) []) by done. simpl. by rewrite with_items_id.
Qed.

Lemma value_at_ext g g' k :
  default g = default g' → dict_get (items g) k = dict_get (items g') k →
  value_at g k = value_at g' k.
Proof. intros Hd Hg. unfold value_at. by rewrite Hd, Hg. Qed.

Lemma get_obj_quantized g k : get_tile_of_coord g k = Ok k → get_obj g k = Ok (value_at g k).
Proof. intros Hk. unfold get_obj. by rewrite Hk. Qed.

End Combine.

(** * The claims *)

Section Claims.
Context {V : Type} `{EqDecision V}.
Implicit Types (h : heap V) (g s o : GeoGrid V) (v : V).

Lemma py_truediv_inv (a b q : Qc) : py_truediv a b = Ok q → b ≠ 0 ∧ q = a / b.
Proof.
  unfold py_truediv. destruct (decide (b = 0)); [done|]. by intros [= <-].
Qed.

Lemma py_truediv_Raise (a b : Qc) e : py_truediv a b = Raise e → b = 0 ∧ e = ArithmeticError ZeroDivisionError.
Proof.
  unfold py_truediv, zero_division. destruct (decide (b = 0)); [|done]. by intros [= <-].
Qed.

Lemma __init___inv rct gsz dflt g :
  __init__ rct gsz dflt = Ok g →
  gsz.1 ≠ 0%Z ∧ gsz.2 ≠ 0%Z ∧
  g = {| rect := ((py_min rct.1.1 rct.2.1, py_min rct.1.2 rct.2.2),
                  (py_max rct.1.1 rct.2.1, py_max rct.1.2 rct.2.2));
         default := dflt; gridsize := (gsz.1, gsz.2);
         tilesize := (py_abs (rct.1.1 - rct.2.1) / Qc_of_Z gsz.2,
                      py_abs (rct.1.2 - rct.2.2) / Qc_of_Z gsz.1);
         items := [] |}.
Proof.
  unfold __init__. unfold mbind, outcome_bind. cbn [fst snd].
  destruct (py_truediv _ (Qc_of_Z gsz.2)) as [t0|] eqn:H0; [|done]. cbn [obind].
  destruct (py_truediv _ (Qc_of_Z gsz.1)) as [t1|] eqn:H1; [|done]. cbn [obind].
  apply py_truediv_inv in H0 as [N0 ->]. apply py_truediv_inv in H1 as [N1 ->].
  intros [= <-]. split_and!; [| |done].
  - intros E. apply N1. rewrite E. apply Z2Qc_inj_0.
  - intros E. apply N0. rewrite E. apply Z2Qc_inj_0.
Qed.

Lemma Qcdiv_nonzero (a b : Qc) : a ≠ 0 → b ≠ 0 → a / b ≠ 0.
Proof.
  intros Ha Hb E. apply Ha.
  rewrite <-(Qcmult_div_r a b Hb), E. ring.
Qed.

Lemma py_abs_diff_nonzero (a b : Qc) : a ≠ b → py_abs (a - b) ≠ 0.
Proof.
  intros Hne E. apply Hne. apply Qcabs_null in E.
  rewrite <-(Qcplus_0_l b), <-E. ring.
Qed.

(** C1 (as amended).  For a grid constructed from [rct] and [gsz], the tile
    size on each axis is the extent of the rectangle on that axis over the
    gridsize component of the other axis; and when the rectangle has non-zero
    extent on both axes, [get_tile_of_coord] returns on each axis
    [coord - coord % tilesize + rect[0] % tilesize], with [rect[0]] the
    normalised bottom-left corner. *)
Theorem C1_tile_of_coord rct gsz (dflt : V) g (coord : Qc * Qc) :
  __init__ rct gsz dflt = Ok g →
  rct.1.1 ≠ rct.2.1 → rct.1.2 ≠ rct.2.2 →
  tilesize g = (py_abs (rct.1.1 - rct.2.1) / Qc_of_Z gsz.2,
                py_abs (rct.1.2 - rct.2.2) / Qc_of_Z gsz.1) ∧
  (rect g).1 = (py_min rct.1.1 rct.2.1, py_min rct.1.2 rct.2.2) ∧
  get_tile_of_coord g coord =
    Ok (coord.1 - py_rem coord.1 (tilesize g).1 + py_rem (rect g).1.1 (tilesize g).1,
        coord.2 - py_rem coord.2 (tilesize g).2 + py_rem (rect g).1.2 (tilesize g).2).
Proof.
  intros Hg Hlat Hlon. apply __init___inv in Hg as (N1 & N2 & ->). cbn [tilesize rect fst snd].
  split_and!; [done|done|].
  apply (get_tile_of_coord_Ok (V:=V)). split; cbn [tilesize fst snd].
  - apply Qcdiv_nonzero; [by apply py_abs_diff_nonzero|].
    intros E. apply N2, Z2Qc_inj. by rewrite E, Z2Qc_inj_0.
  - apply Qcdiv_nonzero; [by apply py_abs_diff_nonzero|].
    intros E. apply N1, Z2Qc_inj. by rewrite E, Z2Qc_inj_0.
Qed.

(** C4 (as amended).  Construction raises exactly when a gridsize component
    is zero, and then it is the division by zero of the tile-size
    computation; every other input, negative gridsize and zero-extent
    rectangle included, gives a grid. *)
Theorem C4_construction rct gsz (dflt : V) :
  match __init__ rct gsz dflt with
  | Ok g =>
      gsz.1 ≠ 0%Z ∧ gsz.2 ≠ 0%Z ∧
      tilesize g = (py_abs (rct.1.1 - rct.2.1) / Qc_of_Z gsz.2,
                    py_abs (rct.1.2 - rct.2.2) / Qc_of_Z gsz.1)
  | Raise e => e = ArithmeticError ZeroDivisionError ∧ (gsz.1 = 0%Z ∨ gsz.2 = 0%Z)
  end.
Proof.
  destruct (__init__ rct gsz dflt) as [g|e] eqn:Hg.
  - apply __init___inv in Hg as (N1 & N2 & ->). done.
  - revert Hg. unfold __init__. unfold mbind, outcome_bind. cbn [fst snd].
    destruct (py_truediv _ (Qc_of_Z gsz.2)) as [t0|e0] eqn:H0; cbn [obind].
    + destruct (py_truediv _ (Qc_of_Z gsz.1)) as [t1|e1] eqn:H1; cbn [obind]; [done|].
      intros [= <-]. apply py_truediv_Raise in H1 as [E ->].
      split; [done|]. left. apply Z2Qc_inj. by rewrite E, Z2Qc_inj_0.
    + intros [= <-]. apply py_truediv_Raise in H0 as [E ->].
      split; [done|]. right. apply Z2Qc_inj. by rewrite E, Z2Qc_inj_0.
Qed.
End Claims.

(** C1, the instance: rectangle ((0,0),(10,10)) with gridsize (2,2) has tile
    size (5,5), and (3,3) lies in the tile (0,0). *)
Lemma C1_square_tilesize :
  __init__ square (2, 2)%Z (Qc_of_Z 0) = Ok grid22 ∧
  tilesize grid22 = Z2 5 5 ∧
  get_tile_of_coord grid22 (Z2 3 3) = Ok (Z2 0 0).
Proof.
  assert (__init__ square (2, 2)%Z (Qc_of_Z 0) = Ok grid22) as Hg by by_evaluation.
  destruct (C1_tile_of_coord square (2, 2)%Z (Qc_of_Z 0) grid22 (Z2 3 3) Hg)
    as (Ht & _ & Hk); [by_evaluation | by_evaluation |].
  split_and!; [exact Hg | reflexivity |].
  rewrite Hk. by_evaluation.
Defined.

(** C1 as stated fails on a constructed grid: the rectangle ((0,0),(0,0))
    gives tile size 0, and [get_tile_of_coord] raises. *)
Lemma C1_zero_extent_raises :
  match __init__ (Z2 0 0, Z2 0 0) (2, 2)%Z (Qc_of_Z 0) with
  | Ok g => get_tile_of_coord g (Z2 1 1) = Raise (ArithmeticError ZeroDivisionError)
  | Raise _ => False
  end.
Proof. vm_compute. reflexivity. Qed.

(** C4 as stated fails: a zero-extent rectangle and a negative gridsize are
    both accepted. *)
Lemma C4_degenerate_inputs_accepted :
  (∃ g, __init__ (Z2 0 0, Z2 0 0) (2, 2)%Z (Qc_of_Z 0) = Ok g ∧ tilesize g = Z2 0 0) ∧
  (∃ g, __init__ square (-2, -2)%Z (Qc_of_Z 0) = Ok g ∧ tilesize g = Z2 (-5) (-5)).
Proof.
  split.
  - destruct (__init__ (Z2 0 0, Z2 0 0) (2, 2)%Z (Qc_of_Z 0)) as [g|e] eqn:Hg;
      [|vm_compute in Hg; discriminate].
    exists g. split; [done|]. apply __init___inv in Hg as (_ & _ & ->). by_evaluation.
  - destruct (__init__ square (-2, -2)%Z (Qc_of_Z 0)) as [g|e] eqn:Hg;
      [|vm_compute in Hg; discriminate].
    exists g. split; [done|]. apply __init___inv in Hg as (_ & _ & ->). by_evaluation.
Qed.

(** ** Operators: the error and the frame *)

Section OperatorFrame.
Context {V : Type} `{EqDecision V}.
Implicit Types (h : heap V) (g s o : GeoGrid V) (v : V).

Lemma get_tile_of_coord_exn g (c : Qc * Qc) e :
  get_tile_of_coord g c = Raise e → e = ArithmeticError ZeroDivisionError.
Proof.
  destruct (decide ((tilesize g).1 = 0)) as [E0|N0].
  - rewrite get_tile_of_coord_Raise by (intros [? _]; done). by intros [= <-].
  - destruct (decide ((tilesize g).2 = 0)) as [E1|N1].
    + rewrite get_tile_of_coord_Raise by (intros [_ ?]; done). by intros [= <-].
    + by rewrite get_tile_of_coord_Ok.
Qed.

Lemma set_obj_no_ValueError (c : Qc * Qc) v g : (set_obj c v g).1 ≠ Raise ValueError.
Proof.
  unfold set_obj. destruct (decide (v ≠ default g)); [|done].
  destruct (get_tile_of_coord g c) as [k|e] eqn:Hk; [done|].
  apply get_tile_of_coord_exn in Hk as ->. done.
Qed.

Lemma get_obj_no_ValueError g (c : Qc * Qc) : get_obj g c ≠ Raise ValueError.
Proof.
  unfold get_obj. destruct (get_tile_of_coord g c) as [k|e] eqn:Hk; [done|].
  apply get_tile_of_coord_exn in Hk as ->. done.
Qed.

Lemma step_obj_no_ValueError f o (k : Qc * Qc) g : (step_obj f o k g).1 ≠ Raise ValueError.
Proof.
  unfold step_obj.
  destruct (get_obj g k) as [a|e] eqn:Ha;
    [|simpl; intros [= ->]; exact (get_obj_no_ValueError _ _ Ha)].
  destruct (get_obj o k) as [b|e] eqn:Hb;
    [|simpl; intros [= ->]; exact (get_obj_no_ValueError _ _ Hb)].
  destruct (f a b); [apply set_obj_no_ValueError | done].
Qed.

Lemma loop_obj_no_ValueError {A} (body : A → GeoGrid V → outcome unit * GeoGrid V) l :
  (∀ x g, (body x g).1 ≠ Raise ValueError) →
  ∀ g, (loop_obj body l g).1 ≠ Raise ValueError.
Proof.
  intros Hb. induction l as [|x l IH]; intros g; simpl; [done|].
  specialize (Hb x g). destruct (body x g) as [[[]|e] g']; simpl in *; [apply IH | done].
Qed.

Lemma operator_obj_no_ValueError f s o : (operator_obj f s o).1 ≠ Raise ValueError.
Proof.
  unfold operator_obj, copy_obj.
  pose proof (loop_obj_no_ValueError (λ kv, set_obj kv.1 kv.2) (items s)
                (λ kv g, set_obj_no_ValueError kv.1 kv.2 g) (with_items s [])) as Hc.
  destruct (loop_obj _ (items s) _) as [[[]|e] g]; simpl in *; [|done].
  apply loop_obj_no_ValueError. intros. apply step_obj_no_ValueError.
Qed.

(** C5.  An operator raises [ValueError] ("incompatible rectangles") exactly
    when the normalised rectangles of its operands differ, whatever their
    gridsizes; and then the heap is the one it was called on. *)
Theorem C5_incompatible_rectangles f (self other : nat) s o h :
  h !! self = Some s → h !! other = Some o →
  ((binary_operator f self other h).1 = Raise ValueError ↔ rect s ≠ rect o) ∧
  (rect s ≠ rect o → binary_operator f self other h = (Raise ValueError, h)).
Proof.
  intros Hs Ho. rewrite (binary_operator_eq f self other s o) by done.
  destruct (decide (rect s ≠ rect o)) as [Hne|Heq]; cbn [fst].
  - done.
  - split; [|done]. split; [|done].
    pose proof (operator_obj_no_ValueError f s o) as Hn.
    destruct (operator_obj f s o).1; simpl; [done|]. intros [= ->]. done.
Qed.

(** C10.  An operator leaves every object of the heap it is called on as it
    was -- both operands with their items, rectangle, gridsize, tile size and
    default -- whether it returns or raises; what it returns is a reference
    that was not allocated before, to a new object. *)
Theorem C10_operators_pure f (self other : nat) s o h :
  h !! self = Some s → h !! other = Some o →
  (binary_operator f self other h).2 !! self = Some s ∧
  (binary_operator f self other h).2 !! other = Some o ∧
  (∀ (r : nat) g, h !! r = Some g → (binary_operator f self other h).2 !! r = Some g) ∧
  (∀ y : nat, (binary_operator f self other h).1 = Ok y →
     h !! y = None ∧ is_Some ((binary_operator f self other h).2 !! y)).
Proof.
  intros Hs Ho. rewrite (binary_operator_eq f self other s o) by done.
  destruct (decide (rect s ≠ rect o)) as [Hne|Heq]; cbn [fst snd].
  - split_and!; [done|done|done|done].
  - split_and!; [by apply lookup_app_l_Some | by apply lookup_app_l_Some | |].
    + intros r g Hr. by apply lookup_app_l_Some.
    + intros y Hy. destruct (operator_obj f s o).1; simpl in Hy; [|done].
      injection Hy as <-. split.
      * by apply lookup_ge_None.
      * rewrite lookup_fresh. by eexists.
Qed.
End OperatorFrame.

(** C5, an instance: two 2 x 2 grids on different rectangles. *)
Lemma C5_apart_grids :
  apart_heap !! 0%nat = Some grid22 ∧ apart_heap !! 1%nat = Some grid22_wide ∧
  rect grid22 ≠ rect grid22_wide ∧
  binary_operator Qc_add 0 1 apart_heap = (Raise ValueError, apart_heap).
Proof.
  assert (apart_heap !! 0%nat = Some grid22) as H0 by by_evaluation.
  assert (apart_heap !! 1%nat = Some grid22_wide) as H1 by by_evaluation.
  assert (rect grid22 ≠ rect grid22_wide) as Hne by by_evaluation.
  split_and!; [exact H0 | exact H1 | exact Hne |].
  exact (proj2 (C5_incompatible_rectangles Qc_add 0 1 _ _ _ H0 H1) Hne).
Defined.

(** C10, an instance: dividing [gridA] by [gridB] leaves both in place and
    returns the third object of the heap. *)
Lemma C10_div_operands_unchanged :
  div_heap !! 0%nat = Some gridA ∧ div_heap !! 1%nat = Some gridB ∧
  (binary_operator Qc_truediv 0 1 div_heap).2 !! 0%nat = Some gridA ∧
  (binary_operator Qc_truediv 0 1 div_heap).2 !! 1%nat = Some gridB.
Proof.
  assert (div_heap !! 0%nat = Some gridA) as H0 by by_evaluation.
  assert (div_heap !! 1%nat = Some gridB) as H1 by by_evaluation.
  destruct (C10_operators_pure Qc_truediv 0 1 _ _ _ H0 H1) as (Ha & Hb & _).
  split_and!; [exact H0 | exact H1 | exact Ha | exact Hb].
Defined.

(** ** Reading and writing one grid *)

Section Accessors.
Context {V : Type} `{EqDecision V}.
Implicit Types (h : heap V) (g : GeoGrid V) (v : V).

(** C6.  After any sequence of calls of the public methods, from the empty
    heap, no object stores its default value; and storing the default through
    [__setitem__] changes nothing at all, so it creates no entry and removes
    none. *)
Theorem C6_sparse_storage (cs : list (call (V:=V))) :
  Forall sparse (exec_all cs []) ∧
  ∀ (self : nat) (coord : Qc * Qc),
    match exec_all cs [] !! self with
    | Some g =>
        __setitem__ self coord (default g) (exec_all cs []) = (Ok (), exec_all cs [])
    | None => True
    end.
Proof.
  split.
  - apply (exec_all_inv sparse sparse_empty sparse_store). constructor.
  - intros self coord. destruct (exec_all cs [] !! self) as [g|] eqn:Hs; [|done].
    rewrite (setitem_eq _ g) by done. by rewrite decide_False by (intros ?; done).
Qed.

(** C7.  Reading a coordinate whose tile has no entry returns the default and
    leaves the heap as it was; the entry looked up is the one of the tile,
    whatever is stored under other keys. *)
Theorem C7_missing_key_read (self : nat) g h (coord k : Qc * Qc) :
  h !! self = Some g →
  get_tile_of_coord g coord = Ok k →
  dict_get (items g) k = None →
  __getitem__ self coord h = (Ok (default g), h).
Proof.
  intros Hs Hk Hnone. rewrite (getitem_eq _ g) by done.
  unfold get_obj, value_at. by rewrite Hk, Hnone.
Qed.

(** C8.  After [self[c] = v], two coordinates of one tile read the same
    value; it is [v] when [c] is one of them and [v] is not the default. *)
Theorem C8_same_tile_same_value (self : nat) g h (c1 c2 k c : Qc * Qc) v :
  h !! self = Some g →
  get_tile_of_coord g c1 = Ok k →
  get_tile_of_coord g c2 = Ok k →
  ∃ x,
    __getitem__ self c1 (__setitem__ self c v h).2 = (Ok x, (__setitem__ self c v h).2) ∧
    __getitem__ self c2 (__setitem__ self c v h).2 = (Ok x, (__setitem__ self c v h).2) ∧
    (c = c1 ∨ c = c2 → v ≠ default g → x = v).
Proof.
  intros Hs H1 H2. rewrite (setitem_set_obj _ g) by done. cbn [snd].
  pose proof (set_obj_same_attrs c v g) as Hat.
  assert (<[self:=(set_obj c v g).2]> h !! self = Some (set_obj c v g).2) as Hs'.
  { apply list_lookup_insert_eq. by eapply lookup_lt_Some. }
  exists (value_at (set_obj c v g).2 k). split_and!.
  - rewrite (getitem_eq _ _ _ _ Hs'). unfold get_obj.
    by rewrite <-(same_attrs_tile g), H1.
  - rewrite (getitem_eq _ _ _ _ Hs'). unfold get_obj.
    by rewrite <-(same_attrs_tile g), H2.
  - intros Hc Hv. assert (get_tile_of_coord g c = Ok k) as Hk by (by destruct Hc as [->| ->]).
    destruct (set_obj_get c v g k k Hk) as [_ Hget].
    unfold value_at. rewrite Hget. by rewrite decide_True.
Qed.



End Accessors.

(** C7, an instance: in the 2 x 2 grid on [square] nothing is stored, and
    (6,6) reads the default 0. *)
Lemma C7_unset_tile_reads_default :
  set_heap !! 0%nat = Some grid22 ∧
  get_tile_of_coord grid22 (Z2 6 6) = Ok (Z2 5 5) ∧
  __getitem__ 0 (Z2 6 6) set_heap = (Ok (Qc_of_Z 0), set_heap).
Proof.
  assert (set_heap !! 0%nat = Some grid22) as H0 by by_evaluation.
  assert (get_tile_of_coord grid22 (Z2 6 6) = Ok (Z2 5 5)) as Hk by by_evaluation.
  split_and!; [exact H0 | exact Hk |].
  exact (C7_missing_key_read 0 grid22 set_heap (Z2 6 6) (Z2 5 5) H0 Hk eq_refl).
Defined.

(** C8, the instance: rectangle ((0,0),(10,10)), gridsize (2,2); after
    [grid[(3,3)] = 7], (3,3) and (4,4) read 7 and (6,6) reads 0. *)
Lemma C8_square_scenario :
  __getitem__ 0 (Z2 3 3) (__setitem__ 0 (Z2 3 3) (Qc_of_Z 7) set_heap).2
    = (Ok (Qc_of_Z 7), (__setitem__ 0 (Z2 3 3) (Qc_of_Z 7) set_heap).2) ∧
  __getitem__ 0 (Z2 4 4) (__setitem__ 0 (Z2 3 3) (Qc_of_Z 7) set_heap).2
    = (Ok (Qc_of_Z 7), (__setitem__ 0 (Z2 3 3) (Qc_of_Z 7) set_heap).2) ∧
  (__getitem__ 0 (Z2 6 6) (__setitem__ 0 (Z2 3 3) (Qc_of_Z 7) set_heap).2).1
    = Ok (Qc_of_Z 0).
Proof.
  assert (set_heap !! 0%nat = Some grid22) as H0 by by_evaluation.
  assert (get_tile_of_coord grid22 (Z2 3 3) = Ok (Z2 0 0)) as H1 by by_evaluation.
  assert (get_tile_of_coord grid22 (Z2 4 4) = Ok (Z2 0 0)) as H2 by by_evaluation.
  destruct (C8_same_tile_same_value 0 grid22 set_heap (Z2 3 3) (Z2 4 4) (Z2 0 0)
              (Z2 3 3) (Qc_of_Z 7) H0 H1 H2) as (x & Ha & Hb & Hx).
  rewrite (Hx (or_introl eq_refl)) in Ha, Hb by by_evaluation.
  split_and!; [exact Ha | exact Hb | by_evaluation].
Defined.


(** ** Operators: the values of the result *)

Section OperatorValues.
Context {V : Type} `{EqDecision V}.
Implicit Types (h : heap V) (g s o : GeoGrid V) (v : V).

Lemma reachable_wf (cs : list (call (V:=V))) : Forall wf (exec_all cs []).
Proof. apply (exec_all_inv wf wf_empty wf_store). constructor. Qed.



End OperatorValues.





(** * Further properties *)

(** ** The constructor *)

Section Constructor.
Context {V : Type} `{EqDecision V}.
Implicit Types (g : GeoGrid V).

Lemma py_min_comm (a b : Qc) : py_min a b = py_min b a.
Proof.
  unfold py_min. destruct (decide (b < a)) as [Hba|Hba], (decide (a < b)) as [Hab|Hab];
    try done.
  - destruct (Qclt_not_le _ _ Hba). by apply Qclt_le_weak.
  - apply Qcle_antisym; by apply Qcnot_lt_le.
Qed.

Lemma py_max_comm (a b : Qc) : py_max a b = py_max b a.
Proof.
  unfold py_max. destruct (decide (b < a)) as [Hba|Hba], (decide (a < b)) as [Hab|Hab];
    try done.
  - destruct (Qclt_not_le _ _ Hba). by apply Qclt_le_weak.
  - apply Qcle_antisym; by apply Qcnot_lt_le.
Qed.

Lemma py_min_le_max (a b : Qc) : py_min a b ≤ py_max a b.
Proof.
  unfold py_min, py_max. destruct (decide (b < a)) as [Hba|Hba], (decide (a < b)) as [Hab|Hab].
  - apply Qcle_refl.
  - by apply Qclt_le_weak.
  - by apply Qclt_le_weak.
  - apply Qcle_refl.
Qed.


(** The rectangle is stored normalised, and the grid does not depend on
    which corner is given first. *)
Theorem init_corner_order rct gsz (dflt : V) g :
  __init__ rct gsz dflt = Ok g →
  (rect g).1.1 ≤ (rect g).2.1 ∧ (rect g).1.2 ≤ (rect g).2.2 ∧
  __init__ (rct.2, rct.1) gsz dflt = Ok g.
Proof.
  intros Hg. apply __init___inv in Hg as (N1 & N2 & ->). cbn [rect fst snd].
  split_and!; [apply py_min_le_max | apply py_min_le_max |].
  unfold __init__. cbn [fst snd]. unfold mbind, outcome_bind.
  rewrite !py_truediv_Ok; cbn [obind].
  - rewrite (py_min_comm rct.2.1), (py_min_comm rct.2.2),
      (py_max_comm rct.2.1), (py_max_comm rct.2.2).
    unfold py_abs. by rewrite (Qcabs_Qcminus rct.2.1), (Qcabs_Qcminus rct.2.2).
  - intros E. apply N1, Z2Qc_inj. by rewrite E, Z2Qc_inj_0.
  - intros E. apply N2, Z2Qc_inj. by rewrite E, Z2Qc_inj_0.
Qed.

End Constructor.

(** An instance: the square given top-right corner first. *)
Lemma init_corner_order_square :
  __init__ (Z2 10 10, Z2 0 0) (2, 2)%Z (Qc_of_Z 0) = Ok grid22 ∧
  __init__ square (2, 2)%Z (Qc_of_Z 0) = Ok grid22.
Proof.
  assert (__init__ (Z2 10 10, Z2 0 0) (2, 2)%Z (Qc_of_Z 0) = Ok grid22) as Hg
    by by_evaluation.
  split; [exact Hg|].
  exact (proj2 (proj2 (init_corner_order (Z2 10 10, Z2 0 0) (2, 2)%Z (Qc_of_Z 0) grid22 Hg))).
Defined.


(** ** The tile of a coordinate *)

Section Tiling.
Context {V : Type} `{EqDecision V}.
Implicit Types (g : GeoGrid V).










End Tiling.

(** ** Writes *)

Section Writes.
Context {V : Type} `{EqDecision V}.
Implicit Types (h : heap V) (g s o : GeoGrid V) (v : V).

(** [self[c] = v] changes neither what another tile of [self] reads nor any
    other object. *)
Theorem setitem_other_tile (self : nat) g h (c c' k k' : Qc * Qc) v :
  h !! self = Some g →
  get_tile_of_coord g c = Ok k →
  get_tile_of_coord g c' = Ok k' →
  k ≠ k' →
  __getitem__ self c' (__setitem__ self c v h).2
    = ((__getitem__ self c' h).1, (__setitem__ self c v h).2) ∧
  ∀ r : nat, r ≠ self → (__setitem__ self c v h).2 !! r = h !! r.
Proof.
  intros Hs Hk Hk' Hne. rewrite (setitem_set_obj _ g) by done. cbn [snd]. split.
  - assert (<[self:=(set_obj c v g).2]> h !! self = Some (set_obj c v g).2) as Hs'.
    { apply list_lookup_insert_eq. by eapply lookup_lt_Some. }
    rewrite (getitem_eq _ _ _ _ Hs'), (getitem_eq _ _ _ _ Hs). cbn [fst]. f_equal.
    unfold get_obj. rewrite <-(same_attrs_tile g) by apply set_obj_same_attrs.
    rewrite Hk'. f_equal. apply value_at_ext.
    + symmetry. apply (set_obj_same_attrs c v g).
    + destruct (set_obj_get c v g k k' Hk) as [_ ->].
      rewrite decide_False; [done|]. intros [_ ?]; done.
  - intros r Hr. by apply list_lookup_insert_ne.
Qed.

Lemma grows_refl h : grows h h.
Proof. intros r g Hr. exists g. split_and!; [done | apply same_attrs_refl | done]. Qed.

Lemma grows_trans h1 h2 h3 : grows h1 h2 → grows h2 h3 → grows h1 h3.
Proof.
  intros H12 H23 r g Hr.
  destruct (H12 r g Hr) as (g2 & Hr2 & Hat2 & Hk2).
  destruct (H23 r g2 Hr2) as (g3 & Hr3 & Hat3 & Hk3).
  exists g3. split_and!; [done | by eapply same_attrs_trans | auto].
Qed.

Lemma growing_bind {A B} (m : M V A) (f : A → M V B) :
  growing m → (∀ a, growing (f a)) → growing (bind m f).
Proof.
  intros Hm Hf h. unfold bind. specialize (Hm h).
  destruct (m h) as [[a|e] h']; cbn [snd] in *; [|done].
  eapply grows_trans; [done | apply Hf].
Qed.

Lemma growing_read_only {A} (m : M V A) : read_only m → growing m.
Proof. intros Hm h. rewrite Hm. apply grows_refl. Qed.

Lemma growing_for_each {A} (l : list A) (body : A → M V unit) :
  (∀ x, growing (body x)) → growing (for_each l body).
Proof.
  intros Hb. induction l as [|x l IH]; simpl.
  - intros h. apply grows_refl.
  - apply growing_bind; auto.
Qed.

Lemma dict_keys_set_mono (d : list ((Qc * Qc) * V)) (k0 k : Qc * Qc) v :
  k ∈ dict_keys d → k ∈ dict_keys (dict_set d k0 v).
Proof.
  intros Hk. destruct (decide (k0 ∈ dict_keys d)) as [Hin|Hn].
  - by rewrite dict_keys_set_present.
  - rewrite dict_set_fresh by done. unfold dict_keys. rewrite map_app.
    apply elem_of_app. by left.
Qed.

Lemma growing_setitem (self : nat) (c : Qc * Qc) v : growing (__setitem__ self c v).
Proof.
  intros h. destruct (h !! self) as [g|] eqn:Hs.
  - rewrite (setitem_set_obj _ g) by done. cbn [snd]. intros r g0 Hr.
    destruct (decide (r = self)) as [->|Hne].
    + rewrite Hs in Hr. injection Hr as <-. exists (set_obj c v g).2. split_and!.
      * apply list_lookup_insert_eq. by eapply lookup_lt_Some.
      * apply set_obj_same_attrs.
      * intros k Hk. unfold set_obj. destruct (decide (v ≠ default g)); [|done].
        destruct (get_tile_of_coord g c); [|done]. by apply dict_keys_set_mono.
    + exists g0. split_and!; [|apply same_attrs_refl|done].
      by rewrite list_lookup_insert_ne.
  - rewrite setitem_dangling by done. apply grows_refl.
Qed.

Lemma growing_alloc g : growing (alloc g).
Proof.
  intros h r g0 Hr. exists g0. split_and!; [|apply same_attrs_refl|done].
  by apply lookup_app_l_Some.
Qed.

Lemma growing_copy (x : nat) : growing (V:=V) (copy x).
Proof.
  unfold copy. unfold_M.
  apply growing_bind; [apply growing_read_only, read_only_read|]. intros g.
  apply growing_bind; [apply growing_alloc|]. intros y.
  apply growing_bind; [|intros; by apply growing_read_only].
  apply growing_for_each. intros kv. apply growing_setitem.
Qed.

Lemma growing_operator (f : V → V → V + fault) (self other : nat) :
  growing (binary_operator f self other).
Proof.
  unfold binary_operator, __grid_operation. unfold_M.
  apply growing_bind; [apply growing_read_only, read_only_read|]. intros s.
  apply growing_bind; [apply growing_read_only, read_only_read|]. intros o.
  destruct (decide (rect s ≠ rect o)); [by apply growing_read_only|].
  apply growing_bind; [apply growing_copy|]. intros geogrid.
  apply growing_bind; [apply growing_read_only, read_only_read|]. intros o'.
  apply growing_bind; [|intros; by apply growing_read_only].
  apply growing_for_each. intros coord. unfold augmented. unfold_M.
  apply growing_bind; [apply growing_read_only, read_only_getitem|]. intros a.
  apply growing_bind; [apply growing_read_only, read_only_getitem|]. intros b.
  apply growing_bind; [by apply growing_read_only|]. intros c.
  apply growing_setitem.
Qed.

Lemma growing_exec (c : call (V:=V)) : growing (exec c).
Proof.
  destruct c; simpl; unfold discard.
  - apply growing_bind; [|intros; by apply growing_read_only].
    unfold GeoGrid_new. unfold_M.
    apply growing_bind; [by apply growing_read_only|]. intros g. apply growing_alloc.
  - apply growing_setitem.
  - apply growing_read_only, read_only_bind; [apply read_only_getitem | done].
  - unfold set_from_grid. unfold_M.
    apply growing_bind; [apply growing_read_only, read_only_read|]. intros g.
    apply growing_setitem.
  - apply growing_bind; [apply growing_operator|]. intros; by apply growing_read_only.
  - apply growing_read_only, read_only_bind; [apply read_only_yield_grid | done].
  - apply growing_read_only, read_only_bind; [apply read_only_yield_values | done].
Qed.

(** No call of a public method removes a stored key or changes the
    rectangle, default, gridsize or tile size of an object: after any
    sequence of calls every object is still there, with the attributes it had
    and at least the keys it had. *)
Theorem calls_never_delete (cs : list (call (V:=V))) h : grows h (exec_all cs h).
Proof.
  revert h. induction cs as [|c cs IH]; intros h; simpl.
  - apply grows_refl.
  - eapply grows_trans; [apply growing_exec | apply IH].
Qed.
End Writes.

(** ** Copies and operators *)

Section MoreOperators.
Context {V : Type} `{EqDecision V}.
Implicit Types (h : heap V) (g s o : GeoGrid V) (v : V).




Lemma operator_loop_total f o (ks : list (Qc * Qc)) :
  (∀ k a, k ∈ ks → ∃ c, f a (value_at o k) = inl c) →
  Forall (quantized o) ks →
  ∀ g, rect g = rect o → tilesize g = tilesize o →
       ∃ g', loop_obj (step_obj f o) ks g = (Ok (), g').
Proof.
  induction ks as [|k ks IH]; intros Hf Hq g Hr Ht; simpl; [by eexists|].
  apply list.Forall_cons in Hq as [Hqk Hq].
  assert (get_tile_of_coord g k = Ok k) as Hgk.
  { rewrite <-Hqk. by apply get_tile_of_coord_ext. }
  unfold step_obj at 1.
  rewrite (get_obj_quantized g k), (get_obj_quantized o k) by done.
  destruct (Hf k (value_at g k)) as [c ->]; [left|].
  destruct (set_obj_get k c g k k Hgk) as [Hok _].
  pose proof (set_obj_same_attrs k c g) as (Hr1 & _ & _ & Ht1).
  destruct (set_obj k c g) as [r1 g1]. simpl in Hok, Hr1, Ht1. subst r1.
  apply IH; [|done|congruence|congruence].
  intros k' a' Hk'. apply Hf. by right.
Qed.

Lemma operator_total (cs : list (call (V:=V))) f (self other : nat) s o :
  exec_all cs [] !! self = Some s →
  exec_all cs [] !! other = Some o →
  rect s = rect o → tilesize s = tilesize o →
  (∀ k a b, dict_get (items o) k = Some b → ∃ c, f a b = inl c) →
  ∃ g', binary_operator f self other (exec_all cs [])
        = (Ok (length (exec_all cs [])), exec_all cs [] ++ [g']).
Proof.
  intros Hs Ho Hr Ht Hf.
  pose proof (reachable_wf cs) as Hwf.
  pose proof (Forall_lookup_1 _ _ _ _ Hwf Hs) as Hws.
  pose proof (Forall_lookup_1 _ _ _ _ Hwf Ho) as (Hndo & Hqo & _).
  rewrite (binary_operator_eq f self other s o) by done.
  rewrite decide_False by (intros ?; done).
  unfold operator_obj. rewrite (copy_obj_wf s Hws).
  destruct (operator_loop_total f o (dict_keys (items o))) with (g := s) as [g' Hg'].
  - intros k a Hk. destruct (dict_get (items o) k) as [b|] eqn:Hb.
    + unfold value_at. rewrite Hb. by eapply Hf.
    + apply dict_get_None in Hb. done.
  - unfold dict_keys. change (map fst (items o)) with (fst <$> items o).
    apply Forall_fmap. exact Hqo.
  - done.
  - done.
  - exists g'. by rewrite Hg'.
Qed.
End MoreOperators.

(** On exact values, [+], [-] and [*] of two grids built by the public
    methods, with equal rectangles and tile sizes, always return. *)
Theorem exact_operators_return (cs : list (call (V:=Qc))) (self other : nat) s o :
  exec_all cs [] !! self = Some s →
  exec_all cs [] !! other = Some o →
  rect s = rect o → tilesize s = tilesize o →
  (∃ g', binary_operator Qc_add self other (exec_all cs [])
         = (Ok (length (exec_all cs [])), exec_all cs [] ++ [g'])) ∧
  (∃ g', binary_operator Qc_sub self other (exec_all cs [])
         = (Ok (length (exec_all cs [])), exec_all cs [] ++ [g'])) ∧
  (∃ g', binary_operator Qc_mul self other (exec_all cs [])
         = (Ok (length (exec_all cs [])), exec_all cs [] ++ [g'])).
Proof.
  intros Hs Ho Hr Ht.
  split_and!; apply (operator_total cs _ self other s o); try done;
    intros k a b _; by eexists.
Qed.


(** ** Iteration *)

Section Iteration.
Context {V : Type} `{EqDecision V}.
Implicit Types (h : heap V) (g : GeoGrid V) (v : V).









End Iteration.

(** ** [from_img] *)

Lemma __init___outcome {V : Type} rct gsz (dflt : V) :
  match __init__ rct gsz dflt with
  | Ok g => gsz.1 ≠ 0%Z ∧ gsz.2 ≠ 0%Z ∧ items g = []
  | Raise e => e = ArithmeticError ZeroDivisionError ∧ (gsz.1 = 0%Z ∨ gsz.2 = 0%Z)
  end.
Proof.
  destruct (__init__ rct gsz dflt) as [g|e] eqn:Hg.
  - pose proof (__init___items _ _ _ _ Hg). apply __init___inv in Hg as (N1 & N2 & _). done.
  - revert Hg. unfold __init__. unfold mbind, outcome_bind. cbn [fst snd].
    destruct (py_truediv _ (Qc_of_Z gsz.2)) as [t0|e0] eqn:H0; cbn [obind].
    + destruct (py_truediv _ (Qc_of_Z gsz.1)) as [t1|e1] eqn:H1; cbn [obind]; [done|].
      intros [= <-]. apply py_truediv_Raise in H1 as [E ->].
      split; [done|]. left. apply Z2Qc_inj. by rewrite E, Z2Qc_inj_0.
    + intros [= <-]. apply py_truediv_Raise in H0 as [E ->].
      split; [done|]. right. apply Z2Qc_inj. by rewrite E, Z2Qc_inj_0.
Qed.

Section LoopFacts.
Context {V : Type} `{EqDecision V}.
Implicit Types (g : GeoGrid V) (v : V).

Lemma loop_obj_app {A} (b : A → GeoGrid V → outcome unit * GeoGrid V) l1 l2 g :
  loop_obj b (l1 ++ l2) g =
    match loop_obj b l1 g with
    | (Ok _, g') => loop_obj b l2 g'
    | (Raise e, g') => (Raise e, g')
    end.
Proof.
  revert g. induction l1 as [|x l1 IH]; intros g; simpl; [done|].
  destruct (b x g) as [[[]|e] g']; [apply IH | done].
Qed.

Lemma loop_obj_map {A B} (f : A → B) (b : B → GeoGrid V → outcome unit * GeoGrid V) l g :
  loop_obj b (map f l) g = loop_obj (λ x, b (f x)) l g.
Proof.
  revert g. induction l as [|x l IH]; intros g; simpl; [done|].
  destruct (b (f x) g) as [[[]|e] g']; [apply IH | done].
Qed.

Lemma loop_obj_nested {A B} (b : A → B → GeoGrid V → outcome unit * GeoGrid V) xs ys g :
  loop_obj (λ x, loop_obj (b x) ys) xs g = loop_obj (λ p, b p.1 p.2) (pairs xs ys) g.
Proof.
  revert g. induction xs as [|x xs IH]; intros g; simpl; [done|].
  rewrite loop_obj_app, loop_obj_map. simpl.
  destruct (loop_obj (b x) ys g) as [[[]|e] g']; [apply IH | done].
Qed.


End LoopFacts.

Lemma set_from_grid_local (h : list (GeoGrid Qc)) g (idx : Z * Z) (v : Qc) :
  set_from_grid (length h) idx v (h ++ [g])
  = ((set_obj (anchor g idx) v g).1, h ++ [(set_obj (anchor g idx) v g).2]).
Proof.
  unfold set_from_grid. unfold_M.
  rewrite (bind_Ok _ _ _ _ _ (read_Some _ _ _ (lookup_fresh h g))).
  apply setitem_local.
Qed.

Lemma from_img_eq rct img divisor (h : list (GeoGrid Qc)) g0 :
  __init__ rct (Z.of_nat (img_size img).1, Z.of_nat (img_size img).2) (Qc_of_Z 0) = Ok g0 →
  from_img rct img divisor h =
    (returning (length h)
       (loop_obj (λ p, pixel_obj img divisor p.1 p.2)
          (pairs (seq 0 (img_size img).1) (seq 0 (img_size img).2)) g0).1,
     h ++ [(loop_obj (λ p, pixel_obj img divisor p.1 p.2)
              (pairs (seq 0 (img_size img).1) (seq 0 (img_size img).2)) g0).2]).
Proof.
  intros Hg. unfold from_img, GeoGrid_new. unfold_M.
  unfold bind at 1. unfold bind at 1. unfold lift. rewrite Hg. unfold alloc.
  unfold bind.
  rewrite (for_each_local h _
             (λ x, loop_obj (pixel_obj img divisor x) (seq 0 (img_size img).2))).
  - rewrite loop_obj_nested. by destruct (loop_obj _ _ _) as [[[]|e] g'].
  - intros x g. apply for_each_local. intros y g1.
    unfold bind, lift, pixel_obj.
    destruct (py_truediv _ divisor) as [v|e]; [|done].
    apply set_from_grid_local.
Qed.



(** [from_img] raises the division by zero of the constructor for an image
    of width or height 0, before any object is created; for a zero divisor
    it raises at the first pixel. *)
Theorem from_img_errors rct img (divisor : Qc) (h : list (GeoGrid Qc)) :
  ((img_size img).1 = 0%nat ∨ (img_size img).2 = 0%nat →
   from_img rct img divisor h = (Raise (ArithmeticError ZeroDivisionError), h)) ∧
  ((img_size img).1 ≠ 0%nat → (img_size img).2 ≠ 0%nat → divisor = 0 →
   (from_img rct img divisor h).1 = Raise (ArithmeticError ZeroDivisionError)).
Proof.
  split.
  - intros Hz. unfold from_img, GeoGrid_new. unfold_M.
    unfold bind at 1. unfold bind at 1. unfold lift.
    pose proof (__init___outcome rct
                  (Z.of_nat (img_size img).1, Z.of_nat (img_size img).2) (Qc_of_Z 0)) as Hc.
    destruct (__init__ rct _ (Qc_of_Z 0)) as [g|e].
    + destruct Hc as (N1 & N2 & _). cbn [fst snd] in N1, N2. destruct Hz; lia.
    + destruct Hc as [-> _]. done.
  - intros Hw Hh ->.
    pose proof (__init___outcome rct
                  (Z.of_nat (img_size img).1, Z.of_nat (img_size img).2) (Qc_of_Z 0)) as Hc.
    destruct (__init__ rct _ (Qc_of_Z 0)) as [g0|e] eqn:Hg.
    + rewrite (from_img_eq _ _ _ _ g0 Hg). cbn [fst].
      destruct (img_size img) as [[|w] [|ht]]; [done..|]. cbn [fst snd pairs seq flat_map map app loop_obj].
      unfold pixel_obj at 1, py_truediv. by rewrite decide_True.
    + destruct Hc as [_ Hz]. cbn [fst snd] in Hz. destruct Hz; lia.
Qed.

(** ** Instances of the further properties *)




Lemma setitem_other_tile_square :
  set_heap !! 0%nat = Some grid22 ∧
  __getitem__ 0 (Z2 6 6) (__setitem__ 0 (Z2 3 3) (Qc_of_Z 7) set_heap).2
    = ((__getitem__ 0 (Z2 6 6) set_heap).1, (__setitem__ 0 (Z2 3 3) (Qc_of_Z 7) set_heap).2).
Proof.
  assert (set_heap !! 0%nat = Some grid22) as H0 by by_evaluation.
  split; [exact H0|].
  refine (proj1 (setitem_other_tile 0 grid22 set_heap (Z2 3 3) (Z2 6 6) (Z2 0 0) (Z2 5 5)
                   (Qc_of_Z 7) H0 _ _ _)); by_evaluation.
Defined.




Lemma exact_operators_return_div :
  div_heap !! 0%nat = Some gridA ∧ div_heap !! 1%nat = Some gridB ∧
  ∃ g', binary_operator Qc_add 0 1 div_heap = (Ok (length div_heap), div_heap ++ [g']).
Proof.
  assert (div_heap !! 0%nat = Some gridA) as H0 by by_evaluation.
  assert (div_heap !! 1%nat = Some gridB) as H1 by by_evaluation.
  split_and!; [exact H0 | exact H1 |].
  exact (proj1 (exact_operators_return div_calls 0 1 gridA gridB H0 H1 eq_refl eq_refl)).
Defined.






